(** * Menu.py: a restaurant order, its menu items and its two iterators

    A shallow embedding of [Menu.py].  Prices are Python floats, that is
    IEEE 754 binary64 numbers, and are modelled bit for bit with the
    Standard Library's [SpecFloat] (precision 53, exponent bound 1024);
    quantities are Python ints, modelled as [Z].  Methods that read or
    change the order are written in a state-and-exception monad over the
    [Order] object they share. *)

From Stdlib Require Import ZArith List String Ascii Bool Lia.
From Stdlib Require Import Permutation Sorted.
From Stdlib Require Import SpecFloat DecimalString.
Import ListNotations.

Local Open Scope string_scope.
Local Open Scope Z_scope.

(** ** Python values *)

(** *** Exceptions and results *)

Inductive exn : Type :=
| ValueError (msg : string)
| OverflowError
| IndexError
| StopIteration.

Inductive result (A : Type) : Type :=
| Ok (a : A)
| Raise (e : exn).

Arguments Ok {A} a.
Arguments Raise {A} e.

Definition rbind {A B} (r : result A) (k : A -> result B) : result B :=
  match r with
  | Ok a => k a
  | Raise e => Raise e
  end.

(** The two messages [MenuItem.__init__] raises [ValueError] with; the
    specification calls these errors [InvalidPrice] and [InvalidQuantity]. *)
Definition InvalidPrice : exn := ValueError "Price cannot be negative!".
Definition InvalidQuantity : exn :=
  ValueError "Quantity must be greater than zero!".

(** *** Floats *)

Definition prec : Z := 53.
Definition emax : Z := 1024.

Definition float : Type := spec_float.

Definition fadd : float -> float -> float := SFadd prec emax.
Definition fsub : float -> float -> float := SFsub prec emax.
Definition fmul : float -> float -> float := SFmul prec emax.
Definition fltb : float -> float -> bool := SFltb.
Definition feqb : float -> float -> bool := SFeqb.
Definition fleb : float -> float -> bool := SFleb.

(** The float nearest to an integer (ties to even). *)
Definition Z2F (z : Z) : float := binary_normalize prec emax z 0 false.

(** A decimal literal of the source, [n/d] with [n] and [d] below [2^53],
    denotes the float nearest to it. *)
Definition literal (n d : Z) : float := SFdiv prec emax (Z2F n) (Z2F d).

Definition F0 : float := S754_zero false.
Definition F0_95 : float := Eval vm_compute in literal 95 100.
Definition F1_05 : float := Eval vm_compute in literal 105 100.

Definition is_nan (x : float) : bool :=
  match x with S754_nan => true | _ => false end.

(** *** Numbers: [int] and [float] under Python's arithmetic *)

Inductive number : Type :=
| Int (z : Z)
| Float (f : float).

(** [float(z)]: an int whose nearest float would be infinite does not
    convert ("int too large to convert to float"). *)
Definition float_of_int (z : Z) : result float :=
  match Z2F z with
  | S754_infinity _ => Raise OverflowError
  | f => Ok f
  end.

Definition to_float (a : number) : result float :=
  match a with
  | Int z => float_of_int z
  | Float f => Ok f
  end.

(** A binary operator: exact on two ints, otherwise on the operands
    converted to float, the left one first. *)
Definition arith (iop : Z -> Z -> Z) (fop : float -> float -> float)
    (a b : number) : result number :=
  match a, b with
  | Int x, Int y => Ok (Int (iop x y))
  | _, _ =>
      rbind (to_float a) (fun x =>
      rbind (to_float b) (fun y => Ok (Float (fop x y))))
  end.

Definition py_add : number -> number -> result number := arith Z.add fadd.
Definition py_sub : number -> number -> result number := arith Z.sub fsub.
Definition py_mul : number -> number -> result number := arith Z.mul fmul.

(** The builtin [sum] over a generator expression [f(x) for x in xs]:
    [0 + f(x1) + f(x2) + ...], each term computed when it is reached.  (A
    CPython build may accumulate floats with a compensated algorithm; the
    language-level meaning modelled here is the plain left fold.) *)
Fixpoint sum_from {A} (f : A -> result number) (acc : number) (xs : list A)
    : result number :=
  match xs with
  | [] => Ok acc
  | x :: xs' =>
      rbind (f x) (fun t =>
      rbind (py_add acc t) (fun acc' => sum_from f acc' xs'))
  end.

Definition py_sum {A} (f : A -> result number) (xs : list A) : result number :=
  sum_from f (Int 0) xs.

(** *** Strings and format specifications

    A [str] is a [string]; its length counts characters. *)

Definition spaces (n : nat) : string := string_of_list_ascii (repeat " "%char n).

(** [format(s, '<w')], [format(s, '>w')] and [format(s, '^w')]: pad with
    spaces up to width [w]; a longer text is kept whole.  Centring puts the
    odd space on the right. *)
Definition ljust (w : nat) (s : string) : string :=
  s ++ spaces (w - String.length s)%nat.

Definition rjust (w : nat) (s : string) : string :=
  spaces (w - String.length s)%nat ++ s.

Definition center (w : nat) (s : string) : string :=
  let p := (w - String.length s)%nat in
  spaces (p / 2)%nat ++ s ++ spaces (p - p / 2)%nat.

(** [str(z)] for an int. *)
Definition str_int (z : Z) : string := NilZero.string_of_int (Z.to_int z).

Definition sign_str (s : bool) : string := if s then "-" else "".

(** [n/d] rounded to the nearest integer, ties to even ([0 <= n], [0 < d]). *)
Definition round_half_even (n d : Z) : Z :=
  let q := n / d in
  match 2 * (n mod d) ?= d with
  | Lt => q
  | Gt => q + 1
  | Eq => if Z.even q then q else q + 1
  end.

(** [m * 2^e * 100], correctly rounded: the magnitude in hundredths. *)
Definition hundredths (m : positive) (e : Z) : Z :=
  match e with
  | Zneg p => round_half_even (Zpos m * 100) (2 ^ Zpos p)
  | _ => Zpos m * 100 * 2 ^ e
  end.

Definition two_digits (n : Z) : string :=
  if n <? 10 then "0" ++ str_int n else str_int n.

(** [format(x, '.2f')]: the exact value of the float rounded to two
    decimals, ties to even. *)
Definition format_2f (x : float) : string :=
  match x with
  | S754_nan => "nan"
  | S754_infinity s => sign_str s ++ "inf"
  | S754_zero s => sign_str s ++ "0.00"
  | S754_finite s m e =>
      let h := hundredths m e in
      sign_str s ++ str_int (h / 100) ++ "." ++ two_digits (h mod 100)
  end.

(** ** class MenuItem and its subclasses *)

(** The class of an item together with the attributes the subclass adds.
    [price] is a float and [quantity] an int, as the constructor annotates
    them. *)
Inductive Variant : Type :=
| Base
| Appetizer (for_sharing : bool)
| MainCourse (is_meet : bool)
| Beverage (size : string) (has_sugar : bool)
| Dessert (on_season : bool).

Record MenuItem : Type := mkMenuItem {
  name : string;
  price : float;
  quantity : Z;
  variant : Variant
}.

(** [MenuItem.__init__]: [price < 0] is tested first, then [quantity <= 0]. *)
Definition MenuItem_init (name : string) (price : float) (quantity : Z)
    : result MenuItem :=
  if fltb price F0 then Raise InvalidPrice
  else if quantity <=? 0 then Raise InvalidQuantity
  else Ok (mkMenuItem name price quantity Base).

(** [get_total_price]: [self.price * self.quantity]. *)
Definition get_total_price (self : MenuItem) : result number :=
  py_mul (Float (price self)) (Int (quantity self)).

(** [change_price]: [self.price *= fee]. *)
Definition change_price (fee : float) (self : MenuItem) : MenuItem :=
  mkMenuItem (name self) (fmul (price self) fee) (quantity self) (variant self).

(** [MenuItem.__lt__]. *)
Definition MenuItem_lt (self menuitem : MenuItem) : bool :=
  if fltb (price self) (price menuitem) then true
  else if feqb (price self) (price menuitem) then
    if quantity self <? quantity menuitem then true else false
  else false.

Definition set_variant (v : Variant) (self : MenuItem) : MenuItem :=
  mkMenuItem (name self) (price self) (quantity self) v.

(** A subclass constructor: the base constructor, then the subclass
    attributes, then [change_price(fee)] when the flag is set. *)
Definition subclass_init (v : Variant) (flag : bool) (fee : float)
    (name : string) (price : float) (quantity : Z) : result MenuItem :=
  rbind (MenuItem_init name price quantity) (fun self =>
  let self := set_variant v self in
  Ok (if flag then change_price fee self else self)).

Definition Appetizer_init name price quantity (for_sharing : bool) :=
  subclass_init (Appetizer for_sharing) for_sharing F0_95 name price quantity.

Definition MainCourse_init name price quantity (is_meet : bool) :=
  subclass_init (MainCourse is_meet) is_meet F1_05 name price quantity.

Definition Beverage_init name price quantity (size : string) (has_sugar : bool) :=
  subclass_init (Beverage size has_sugar) has_sugar F1_05 name price quantity.

Definition Dessert_init name price quantity (on_season : bool) :=
  subclass_init (Dessert on_season) on_season F0_95 name price quantity.

(** [str(item)]: every subclass returns the name.  The base class defines
    no [__str__]; its inherited text shows the object's address, which is
    left out here. *)
Definition str (self : MenuItem) : string :=
  match variant self with
  | Base => "<__main__.MenuItem object>"
  | _ => name self
  end.

(** The row [MenuSecondIterator.__next__] builds:
    [f"{name:<20} | {price:>6.2f} | {quantity:^5}"]. *)
Definition format_row (actual : MenuItem) : string :=
  ljust 20 (name actual) ++ " | " ++ rjust 6 (format_2f (price actual))
  ++ " | " ++ center 5 (str_int (quantity actual)).

(** [list.sort()] on a list of menu items.  The builtin is stable and
    compares with [<] alone, here [MenuItem.__lt__].  It is modelled by a
    stable insertion sort: the items are taken from left to right and each
    is placed before the first item it is less than.  When [<] is a strict
    weak order on the items (no price is NaN) the stable sorted arrangement
    is unique, so this is the list the builtin leaves; for an inconsistent
    [<] the builtin promises nothing beyond a rearrangement. *)
Fixpoint insort (x : MenuItem) (l : list MenuItem) : list MenuItem :=
  match l with
  | [] => [x]
  | y :: l' => if MenuItem_lt x y then x :: l else y :: insort x l'
  end.

Definition list_sort (l : list MenuItem) : list MenuItem :=
  fold_left (fun sorted x => insort x sorted) l [].

(** ** class Order *)

Record Order : Type := mkOrder {
  menu_items : list MenuItem
}.

(** Computations on the order object: they may change it and may raise. *)
Definition M (A : Type) : Type := Order -> result A * Order.

Definition ret {A} (a : A) : M A := fun o => (Ok a, o).

Definition bind {A B} (m : M A) (k : A -> M B) : M B :=
  fun o =>
    match m o with
    | (Ok a, o') => k a o'
    | (Raise e, o') => (Raise e, o')
    end.

Definition lift {A} (r : result A) : M A := fun o => (r, o).

Definition get_menu_items : M (list MenuItem) := fun o => (Ok (menu_items o), o).

Definition set_menu_items (l : list MenuItem) : M unit :=
  fun _ => (Ok tt, mkOrder l).

Notation "x <- m ;; k" := (bind m (fun x => k))
  (at level 61, m at next level, right associativity).

(** [Order.__init__]. *)
Definition Order_init : Order := mkOrder [].

(** [add_item]: [self.menu_items.append(item)]. *)
Definition add_item (item : MenuItem) : M unit :=
  items <- get_menu_items ;;
  set_menu_items (items ++ [item]).

(** [show]: [[str(item) for item in self.menu_items]]. *)
Definition show : M (list string) :=
  items <- get_menu_items ;;
  ret (map str items).

(** [__len__]. *)
Definition Order_len : M nat :=
  items <- get_menu_items ;;
  ret (List.length items).

(** [calculate_bill]:
    [sum(item.get_total_price() for item in self.menu_items)]. *)
Definition calculate_bill : M number :=
  items <- get_menu_items ;;
  lift (py_sum get_total_price items).

(** [apply_discount]: [total = self.calculate_bill()], then
    [total * (1 - discount)]. *)
Definition apply_discount (discount : float) : M number :=
  total <- calculate_bill ;;
  lift (rbind (py_sub (Int 1) (Float discount)) (fun d => py_mul total d)).

(** ** Iterators

    Every iterator keeps a reference to the order (or to its list) and
    reads it anew at each step.  A step takes the iterator and the order
    and gives back what was yielded or raised, the iterator and the
    order. *)

Definition step (I Y : Type) : Type := I -> Order -> result Y * I * Order.

(** The iterator of the builtin list, which [Order.__iter__] returns:
    once it has run off the end it stays exhausted. *)
Record list_iterator : Type := mkListIterator {
  li_index : nat;
  li_exhausted : bool
}.

Definition Order_iter : M list_iterator := ret (mkListIterator 0 false).

Definition list_iterator_next : step list_iterator MenuItem :=
  fun self o =>
    if li_exhausted self then (Raise StopIteration, self, o)
    else
      match nth_error (menu_items o) (li_index self) with
      | Some item => (Ok item, mkListIterator (S (li_index self)) false, o)
      | None => (Raise StopIteration, mkListIterator (li_index self) true, o)
      end.

Record MenuMainIterator : Type := mkMain {
  current_item_index : nat
}.

Definition MenuMainIterator_init : M MenuMainIterator := ret (mkMain 0).

(** [MenuMainIterator.__next__].  [len(self.order)] is [Order.__len__],
    the length of the list; indexing a list past its end raises
    [IndexError]. *)
Definition MenuMainIterator_next : step MenuMainIterator MenuItem :=
  fun self o =>
    if Nat.eqb (current_item_index self) (List.length (menu_items o))
    then (Raise StopIteration, self, o)
    else
      match nth_error (menu_items o) (current_item_index self) with
      | Some actual => (Ok actual, mkMain (S (current_item_index self)), o)
      | None => (Raise IndexError, self, o)
      end.

(** [second_list] is the attribute [self.list]: it receives what
    [list.sort()] returns, which is [None]. *)
Record MenuSecondIterator : Type := mkSecond {
  second_index : nat;
  second_list : option (list MenuItem)
}.

(** [self.order.menu_items.sort()]: sorts the order's own list and returns
    [None]. *)
Definition menu_items_sort : M (option (list MenuItem)) :=
  items <- get_menu_items ;;
  _ <- set_menu_items (list_sort items) ;;
  ret None.

(** [MenuSecondIterator.__init__] (the line it prints is not modelled). *)
Definition MenuSecondIterator_init : M MenuSecondIterator :=
  sorted <- menu_items_sort ;;
  ret (mkSecond 0 sorted).

(** [MenuSecondIterator.__next__]. *)
Definition MenuSecondIterator_next : step MenuSecondIterator string :=
  fun self o =>
    if Nat.eqb (second_index self) (List.length (menu_items o))
    then (Raise StopIteration, self, o)
    else
      match nth_error (menu_items o) (second_index self) with
      | Some actual =>
          (Ok (format_row actual),
           mkSecond (S (second_index self)) (second_list self), o)
      | None => (Raise IndexError, self, o)
      end.

(** ** class MenuIterable *)

Record MenuIterable : Type := mkIterable {
  method : Z
}.

Inductive Iterator : Type :=
| MainIterator (it : MenuMainIterator)
| SecondIterator (it : MenuSecondIterator).

(** What a traversal yields: the item itself, or a formatted row. *)
Inductive yielded : Type :=
| Item (item : MenuItem)
| Row (text : string).

(** [MenuIterable.__iter__]. *)
Definition MenuIterable_iter (self : MenuIterable) : M Iterator :=
  if method self =? 1 then
    it <- MenuMainIterator_init ;; ret (MainIterator it)
  else
    it <- MenuSecondIterator_init ;; ret (SecondIterator it).

Definition Iterator_next : step Iterator yielded :=
  fun self o =>
    match self with
    | MainIterator it =>
        let '(r, it', o') := MenuMainIterator_next it o in
        (rbind r (fun item => Ok (Item item)), MainIterator it', o')
    | SecondIterator it =>
        let '(r, it', o') := MenuSecondIterator_next it o in
        (rbind r (fun text => Ok (Row text)), SecondIterator it', o')
    end.

(** ** Running an iterator to exhaustion

    [for y in it: ...] calls [next] until [StopIteration]; [exhaust]
    collects what is yielded on the way.  [None] means the fuel ran out
    before the iterator stopped. *)
Section Exhaust.
Context {I Y : Type}.
Variable next : step I Y.

Fixpoint exhaust (fuel : nat) (it : I) (o : Order)
    : option (result (list Y) * I * Order) :=
  match fuel with
  | O => None
  | S fuel' =>
      match next it o with
      | (Ok y, it', o') =>
          match exhaust fuel' it' o' with
          | Some (Ok ys, it'', o'') => Some (Ok (y :: ys), it'', o'')
          | stopped => stopped
          end
      | (Raise StopIteration, it', o') => Some (Ok [], it', o')
      | (Raise e, it', o') => Some (Raise e, it', o')
      end
  end.
End Exhaust.

(** [for y in iterable: ...]: ask the iterable for an iterator, then run it
    to exhaustion.  The result is what was yielded and the order as the
    traversal leaves it. *)
Definition traverse (fuel : nat) (self : MenuIterable) (o : Order)
    : option (result (list yielded) * Order) :=
  match MenuIterable_iter self o with
  | (Ok it, o') =>
      match exhaust Iterator_next fuel it o' with
      | Some (r, _, o'') => Some (r, o'')
      | None => None
      end
  | (Raise e, o') => Some (Raise e, o')
  end.

(** [for item in order: ...]. *)
Definition traverse_order (fuel : nat) (o : Order)
    : option (result (list MenuItem) * Order) :=
  match Order_iter o with
  | (Ok it, o') =>
      match exhaust list_iterator_next fuel it o' with
      | Some (r, _, o'') => Some (r, o'')
      | None => None
      end
  | (Raise e, o') => Some (Raise e, o')
  end.

(** Two [for] loops over the same iterable, one after the other: what each
    yields and the order as the second leaves it. *)
Definition traverse_twice (fuel : nat) (self : MenuIterable) (o : Order)
    : option (result (list yielded) * result (list yielded) * Order) :=
  match traverse fuel self o with
  | Some (first, o') =>
      match traverse fuel self o' with
      | Some (second, o'') => Some (first, second, o'')
      | None => None
      end
  | None => None
  end.

(** ** The demonstration of the [__main__] block *)

Fixpoint collect {A} (rs : list (result A)) : result (list A) :=
  match rs with
  | [] => Ok []
  | r :: rs' => rbind r (fun a => rbind (collect rs') (fun l => Ok (a :: l)))
  end.

(** [for item in items: order.add_item(item)]. *)
Definition add_all (items : list MenuItem) (o : Order) : Order :=
  fold_left (fun o' item => snd (add_item item o')) items o.

Definition demo_items : list (result MenuItem) :=
  [ Appetizer_init "Nachos" (literal 550 100) 2 true;
    Appetizer_init "Spring Rolls" (literal 400 100) 3 false;
    MainCourse_init "Steak" (literal 1500 100) 1 true;
    MainCourse_init "Vegetarian Pasta" (literal 1200 100) 2 false;
    Beverage_init "Coca Cola" (literal 250 100) 2 "Medium" true;
    Beverage_init "Orange Juice" (literal 300 100) 1 "Large" false;
    Dessert_init "Cheesecake" (literal 600 100) 1 true;
    Dessert_init "Chocolate Cake" (literal 550 100) 1 false;
    Appetizer_init "Garlic Bread" (literal 350 100) 1 true;
    Beverage_init "Latte" (literal 400 100) 1 "Small" false ].

Definition demo : result Order :=
  rbind (collect demo_items) (fun items => Ok (add_all items Order_init)).

(** ** Orderings and sample data used in the statements *)

(** [a] is not greater than [b]: [b < a] is false. *)
Definition MenuItem_le (a b : MenuItem) : Prop := MenuItem_lt b a = false.

(** No price in the list is NaN. *)
Definition nan_free (l : list MenuItem) : Prop :=
  Forall (fun item => is_nan (price item) = false) l.

(** Neither item is less than the other: the sort may not reorder them. *)
Definition tied (a b : MenuItem) : bool :=
  negb (MenuItem_lt a b) && negb (MenuItem_lt b a).

(** What the two strategies would yield for a given sequence of items. *)
Definition items_of (l : list MenuItem) : list yielded := map Item l.


Definition steak : MenuItem := mkMenuItem "Steak" (Z2F 5) 1 (MainCourse false).
Definition soda : MenuItem := mkMenuItem "Soda" (Z2F 4) 1 (Beverage "Small" false).

(** ** Further definitions used in the statements *)



(** The [current_item_index] of an iterator. *)
Definition Iterator_index (self : Iterator) : nat :=
  match self with
  | MainIterator it => current_item_index it
  | SecondIterator it => second_index it
  end.

(** What [MenuItem.__init__] checks: [price < 0] is false and the
    quantity is above 0. *)
Definition valid_item (item : MenuItem) : Prop :=
  fltb (price item) F0 = false /\ 0 < quantity item.

(** * Properties *)

(** ** Float comparison *)

Ltac by_compare :=
  repeat match goal with
  | H : context [PosDef.Pos.compare_cont Eq ?a ?b] |- _ =>
      change (PosDef.Pos.compare_cont Eq a b) with (Pos.compare a b) in H
  | |- context [PosDef.Pos.compare_cont Eq ?a ?b] =>
      change (PosDef.Pos.compare_cont Eq a b) with (Pos.compare a b)
  end;
  repeat match goal with
  | H : context [Z.compare ?a ?b] |- _ => destruct (Z.compare_spec a b)
  | |- context [Z.compare ?a ?b] => destruct (Z.compare_spec a b)
  | H : context [Pos.compare ?a ?b] |- _ => destruct (Pos.compare_spec a b)
  | |- context [Pos.compare ?a ?b] => destruct (Pos.compare_spec a b)
  end;
  simpl in *; try congruence; try lia.

Lemma SFcompare_total (x y : float) :
  is_nan x = false -> is_nan y = false -> exists c, SFcompare x y = Some c.
Proof.
  destruct x as [[]|[]| |[] m1 e1], y as [[]|[]| |[] m2 e2]; simpl;
    intros Hx Hy; try discriminate; eauto.
Qed.

Lemma SFcompare_refl (x : float) : is_nan x = false -> SFcompare x x = Some Eq.
Proof.
  destruct x as [[]|[]| |[] m e]; simpl; try discriminate; intros _; trivial;
    rewrite Z.compare_refl; fold (Pos.compare m m);
    rewrite Pos.compare_refl; reflexivity.
Qed.

Lemma SFcompare_antisym (x y : float) (c : comparison) :
  SFcompare x y = Some c -> SFcompare y x = Some (CompOpp c).
Proof.
  destruct x as [[]|[]| |[] m1 e1], y as [[]|[]| |[] m2 e2]; simpl;
    intros H; inversion H; subst; clear H; simpl; trivial;
    rewrite (Z.compare_antisym e1 e2); destruct (e1 ?= e2); simpl; trivial;
    fold (Pos.compare m1 m2); fold (Pos.compare m2 m1);
    rewrite (Pos.compare_antisym m1 m2);
    destruct (m1 ?= m2)%positive; reflexivity.
Qed.

Lemma SFcompare_trans (x y z : float) (c : comparison) :
  SFcompare x y = Some c -> SFcompare y z = Some c -> SFcompare x z = Some c.
Proof.
  destruct x as [[]|[]| |[] m1 e1], y as [[]|[]| |[] m2 e2],
           z as [[]|[]| |[] m3 e3]; simpl; intros H1 H2;
    try discriminate; try assumption;
    try (inversion H1; inversion H2; congruence).
  all: injection H1 as H1; injection H2 as H2; f_equal; subst c; by_compare.
Qed.

Lemma SFcompare_eq_l (x y z : float) (c : comparison) :
  SFcompare x y = Some Eq -> SFcompare y z = Some c -> SFcompare x z = Some c.
Proof.
  destruct x as [[]|[]| |[] m1 e1], y as [[]|[]| |[] m2 e2],
           z as [[]|[]| |[] m3 e3]; simpl; intros H1 H2;
    try discriminate; try assumption;
    try (inversion H1; inversion H2; congruence).
  all: injection H1 as H1; injection H2 as H2; f_equal; subst c; by_compare.
Qed.

Lemma SFcompare_eq_r (x y z : float) (c : comparison) :
  SFcompare x y = Some c -> SFcompare y z = Some Eq -> SFcompare x z = Some c.
Proof.
  intros H1 H2.
  apply SFcompare_antisym in H1, H2. simpl in H2.
  pose proof (SFcompare_eq_l _ _ _ _ H2 H1) as H.
  apply SFcompare_antisym in H. rewrite CompOpp_involutive in H. exact H.
Qed.

Lemma fltb_not_feqb (x y : float) : fltb x y = true -> feqb x y = false.
Proof.
  unfold fltb, feqb, SFltb, SFeqb.
  destruct (SFcompare x y) as [[]|]; congruence.
Qed.

Lemma fltb_irrefl (x : float) : fltb x x = false.
Proof.
  unfold fltb, SFltb. destruct x as [[]|[]| |[] m e]; simpl; trivial;
    rewrite Z.compare_refl; fold (Pos.compare m m);
    rewrite Pos.compare_refl; reflexivity.
Qed.

(** [price >= 0] is stronger than the constructor's test [not price < 0],
    which NaN passes as well. *)
Lemma fleb_zero_not_fltb (p : float) : fleb F0 p = true -> fltb p F0 = false.
Proof.
  unfold fleb, fltb, F0. destruct p as [[]|[]| |[] m e]; cbv; congruence.
Qed.

Lemma fleb_zero_not_nan (p : float) : fleb F0 p = true -> is_nan p = false.
Proof.
  unfold fleb, F0. destruct p as [[]|[]| |[] m e]; cbv; congruence.
Qed.

(** ** Menu items *)

Lemma float_of_int_0 : float_of_int 0 = Ok F0.
Proof. reflexivity. Qed.

Lemma float_of_int_1 : float_of_int 1 = Ok (Z2F 1).
Proof. reflexivity. Qed.

Lemma get_total_price_eq (item : MenuItem) :
  get_total_price item =
  rbind (float_of_int (quantity item))
        (fun fq => Ok (Float (fmul (price item) fq))).
Proof. reflexivity. Qed.

Lemma MenuItem_init_ok (n : string) (p : float) (q : Z) :
  fltb p F0 = false -> 0 < q ->
  MenuItem_init n p q = Ok (mkMenuItem n p q Base).
Proof.
  intros Hp Hq. unfold MenuItem_init. rewrite Hp.
  destruct (Z.leb_spec q 0); [lia | reflexivity].
Qed.

Lemma subclass_init_ok (v : Variant) (flag : bool) (fee : float)
    (n : string) (p : float) (q : Z) :
  fltb p F0 = false -> 0 < q ->
  subclass_init v flag fee n p q =
  Ok (mkMenuItem n (if flag then fmul p fee else p) q v).
Proof.
  intros Hp Hq. unfold subclass_init.
  rewrite (MenuItem_init_ok n p q Hp Hq). simpl.
  destruct flag; reflexivity.
Qed.

(** C5: for every name, every price >= 0 and every quantity > 0 the
    construction of a MenuItem succeeds, and on the constructed item
    total_price() evaluates as [price * quantity] does: to the float
    product of the price and the quantity converted to float. *)
Theorem C5_construction_total_price (n : string) (p : float) (q : Z) :
  fleb F0 p = true -> 0 < q ->
  exists item,
    MenuItem_init n p q = Ok item /\
    name item = n /\ price item = p /\ quantity item = q /\
    get_total_price item = py_mul (Float p) (Int q) /\
    (forall fq, float_of_int q = Ok fq ->
       get_total_price item = Ok (Float (fmul p fq))).
Proof.
  intros Hp Hq. exists (mkMenuItem n p q Base).
  split; [apply MenuItem_init_ok; auto using fleb_zero_not_fltb|].
  repeat split.
  intros fq Hfq. rewrite get_total_price_eq. simpl. rewrite Hfq. reflexivity.
Qed.

Lemma C5_witness :
  exists item,
    MenuItem_init "Nachos" (literal 55 10) 2 = Ok item /\
    name item = "Nachos" /\ price item = literal 55 10 /\ quantity item = 2 /\
    get_total_price item = py_mul (Float (literal 55 10)) (Int 2) /\
    (forall fq, float_of_int 2 = Ok fq ->
       get_total_price item = Ok (Float (fmul (literal 55 10) fq))).
Proof.
  apply (C5_construction_total_price "Nachos" (literal 55 10) 2);
    [vm_compute; reflexivity | lia].
Defined.

(** An item with price 5.50 and quantity 2 totals 11.0. *)
Example total_price_nachos :
  rbind (MenuItem_init "Nachos" (literal 55 10) 2) get_total_price
  = Ok (Float (Z2F 11)).
Proof. vm_compute. reflexivity. Qed.

(** C6: A < B holds exactly when A.price < B.price, or A.price == B.price
    and A.quantity < B.quantity; with equal price and equal quantity A < B
    is false. *)
Theorem C6_lt_iff (a b : MenuItem) :
  (MenuItem_lt a b = true <->
     fltb (price a) (price b) = true \/
     (feqb (price a) (price b) = true /\ quantity a < quantity b)) /\
  (feqb (price a) (price b) = true /\ quantity a = quantity b ->
     MenuItem_lt a b = false).
Proof.
  unfold MenuItem_lt. split.
  - destruct (fltb (price a) (price b)) eqn:Hlt; [tauto|].
    destruct (feqb (price a) (price b)) eqn:Heq.
    + destruct (Z.ltb_spec (quantity a) (quantity b)) as [Hq|Hq].
      * tauto.
      * split; [discriminate|].
        intros [H'|[_ H']]; [discriminate | lia].
    + split; [discriminate|]. intros [H'|[H' _]]; discriminate.
  - intros [Heq Hq].
    destruct (fltb (price a) (price b)) eqn:Hlt.
    + apply fltb_not_feqb in Hlt. congruence.
    + rewrite Heq, Hq, Z.ltb_irrefl. reflexivity.
Qed.

Lemma C6_witness :
  MenuItem_lt (mkMenuItem "a" (Z2F 5) 2 Base) (mkMenuItem "b" (Z2F 5) 3 Base) = true /\
  MenuItem_lt (mkMenuItem "a" (Z2F 4) 99 Base) (mkMenuItem "b" (Z2F 5) 1 Base) = true /\
  MenuItem_lt (mkMenuItem "a" (Z2F 5) 2 Base) (mkMenuItem "b" (Z2F 5) 2 Base) = false.
Proof.
  split; [|split].
  - apply (proj1 (C6_lt_iff _ _)). right. split; [reflexivity | simpl; lia].
  - apply (proj1 (C6_lt_iff _ _)). left. reflexivity.
  - apply (proj2 (C6_lt_iff _ _)). split; reflexivity.
Defined.

(** C7: for every valid construction input with base price p, a variant
    built with its flag true stores p times its multiplier (Appetizer and
    Dessert 0.95, MainCourse and Beverage 1.05), applied once; with the
    flag false it stores p. *)
Theorem C7_variant_price (n : string) (p : float) (q : Z) (size : string) :
  fleb F0 p = true -> 0 < q ->
  Appetizer_init n p q true = Ok (mkMenuItem n (fmul p F0_95) q (Appetizer true)) /\
  Appetizer_init n p q false = Ok (mkMenuItem n p q (Appetizer false)) /\
  MainCourse_init n p q true = Ok (mkMenuItem n (fmul p F1_05) q (MainCourse true)) /\
  MainCourse_init n p q false = Ok (mkMenuItem n p q (MainCourse false)) /\
  Beverage_init n p q size true
    = Ok (mkMenuItem n (fmul p F1_05) q (Beverage size true)) /\
  Beverage_init n p q size false = Ok (mkMenuItem n p q (Beverage size false)) /\
  Dessert_init n p q true = Ok (mkMenuItem n (fmul p F0_95) q (Dessert true)) /\
  Dessert_init n p q false = Ok (mkMenuItem n p q (Dessert false)) /\
  F0_95 = literal 95 100 /\ F1_05 = literal 105 100.
Proof.
  intros Hp Hq. apply fleb_zero_not_fltb in Hp.
  unfold Appetizer_init, MainCourse_init, Beverage_init, Dessert_init.
  rewrite !subclass_init_ok by assumption.
  repeat split; reflexivity.
Qed.

Lemma C7_witness :
  Appetizer_init "Nachos" (literal 55 10) 2 true
    = Ok (mkMenuItem "Nachos" (fmul (literal 55 10) F0_95) 2 (Appetizer true)) /\
  Dessert_init "Cheesecake" (Z2F 6) 1 false
    = Ok (mkMenuItem "Cheesecake" (Z2F 6) 1 (Dessert false)).
Proof.
  split.
  - apply (C7_variant_price "Nachos" (literal 55 10) 2 "");
      [vm_compute; reflexivity | lia].
  - apply (C7_variant_price "Cheesecake" (Z2F 6) 1 "");
      [vm_compute; reflexivity | lia].
Defined.

(** ** The bill *)

Lemma sum_from_floats (items : list MenuItem) (ts : list float) :
  Forall2 (fun item t => get_total_price item = Ok (Float t)) items ts ->
  forall acc,
    sum_from get_total_price (Float acc) items
    = Ok (Float (fold_left fadd ts acc)).
Proof.
  induction 1 as [|item t items ts Ht _ IH]; intros acc; simpl.
  - reflexivity.
  - rewrite Ht. simpl. apply IH.
Qed.

Lemma py_sum_floats (items : list MenuItem) (ts : list float) :
  items <> [] ->
  Forall2 (fun item t => get_total_price item = Ok (Float t)) items ts ->
  py_sum get_total_price items = Ok (Float (fold_left fadd ts F0)).
Proof.
  intros Hne H. destruct H as [|item t items ts Ht H]; [congruence|].
  unfold py_sum. simpl. rewrite Ht. simpl.
  apply (sum_from_floats _ _ H).
Qed.

Lemma totals_exist (items : list MenuItem) :
  Forall (fun item => exists fq, float_of_int (quantity item) = Ok fq) items ->
  exists ts,
    Forall2 (fun item t => get_total_price item = Ok (Float t)) items ts.
Proof.
  induction 1 as [|item items [fq Hfq] _ [ts IH]].
  - exists []. constructor.
  - exists (fmul (price item) fq :: ts). constructor; [|exact IH].
    rewrite get_total_price_eq, Hfq. reflexivity.
Qed.

(** C8: calculate_bill() returns the sum, taken from left to right, of
    total_price() over the stored items, and 0 for an order with no
    items; the order is left as it was. *)
Theorem C8_calculate_bill (o : Order) :
  calculate_bill o = (py_sum get_total_price (menu_items o), o) /\
  (menu_items o = [] -> fst (calculate_bill o) = Ok (Int 0)) /\
  (forall ts,
     menu_items o <> [] ->
     Forall2 (fun item t => get_total_price item = Ok (Float t))
             (menu_items o) ts ->
     fst (calculate_bill o) = Ok (Float (fold_left fadd ts F0))) /\
  (Forall (fun item => exists fq, float_of_int (quantity item) = Ok fq)
          (menu_items o) ->
   exists total, fst (calculate_bill o) = Ok total).
Proof.
  split; [reflexivity|]. split; [|split].
  - intros H. unfold calculate_bill, bind, get_menu_items, lift. simpl.
    rewrite H. reflexivity.
  - intros ts Hne H. unfold calculate_bill, bind, get_menu_items, lift. simpl.
    apply py_sum_floats; assumption.
  - intros H. apply totals_exist in H as [ts Hts].
    unfold calculate_bill, bind, get_menu_items, lift. simpl.
    destruct (menu_items o) as [|item items] eqn:Hitems.
    + exists (Int 0). reflexivity.
    + eexists. apply (py_sum_floats _ ts); [discriminate | exact Hts].
Qed.

Lemma C8_witness :
  fst (calculate_bill Order_init) = Ok (Int 0) /\
  fst (calculate_bill (mkOrder [steak; soda]))
  = Ok (Float (fold_left fadd [Z2F 5; Z2F 4] F0)).
Proof.
  split.
  - apply (C8_calculate_bill Order_init). reflexivity.
  - apply (C8_calculate_bill (mkOrder [steak; soda])).
    + discriminate.
    + repeat constructor.
Defined.

(** The bill of one item with price 5.50 and quantity 2 is 11.0. *)
Example calculate_bill_nachos :
  fst (calculate_bill (mkOrder [mkMenuItem "Nachos" (literal 55 10) 2 Base]))
  = Ok (Float (Z2F 11)).
Proof. vm_compute. reflexivity. Qed.

(** C9: apply_discount(f) returns calculate_bill() * (1 - f) for every
    fraction f, none being refused, and leaves the order and the prices of
    its items as they were. *)
Theorem C9_apply_discount (o : Order) (f : float) :
  fst (apply_discount f o)
    = rbind (fst (calculate_bill o)) (fun total =>
      rbind (py_sub (Int 1) (Float f)) (fun d => py_mul total d)) /\
  snd (apply_discount f o) = o /\
  (forall b, fst (calculate_bill o) = Ok (Float b) ->
     fst (apply_discount f o) = Ok (Float (fmul b (fsub (Z2F 1) f)))) /\
  (fst (calculate_bill o) = Ok (Int 0) ->
     fst (apply_discount f o) = Ok (Float (fmul F0 (fsub (Z2F 1) f)))).
Proof.
  unfold apply_discount, bind, lift.
  destruct (calculate_bill o) as [r o'] eqn:Hbill.
  assert (Ho : o' = o).
  { unfold calculate_bill, bind, get_menu_items, lift in Hbill.
    simpl in Hbill. congruence. }
  subst o'. simpl. destruct r as [total|e]; simpl.
  - repeat split.
    + intros b Hb. injection Hb as ->. reflexivity.
    + intros Hz. injection Hz as ->. reflexivity.
  - repeat split; discriminate.
Qed.

Lemma C9_witness :
  fst (apply_discount (literal 1 10) (mkOrder [mkMenuItem "x" (Z2F 100) 1 Base]))
  = Ok (Float (fmul (Z2F 100) (fsub (Z2F 1) (literal 1 10)))) /\
  fst (apply_discount (literal 1 10) Order_init)
  = Ok (Float (fmul F0 (fsub (Z2F 1) (literal 1 10)))).
Proof.
  split.
  - apply (C9_apply_discount (mkOrder [mkMenuItem "x" (Z2F 100) 1 Base])).
    vm_compute. reflexivity.
  - apply (C9_apply_discount Order_init). reflexivity.
Defined.

(** A discount of 0.1 on a bill of 100.0 gives 90.0; a discount of 0 gives
    the bill; a fraction above 1 gives a negative amount. *)
Example apply_discount_examples :
  let o := mkOrder [mkMenuItem "x" (Z2F 100) 1 Base] in
  fst (apply_discount (literal 1 10) o) = Ok (Float (Z2F 90)) /\
  fst (apply_discount F0 o) = Ok (Float (Z2F 100)) /\
  fst (apply_discount (Z2F 2) o) = Ok (Float (Z2F (-100))).
Proof. vm_compute. repeat split. Qed.

(** ** Sorting *)

Lemma insort_perm (x : MenuItem) (l : list MenuItem) :
  Permutation (x :: l) (insort x l).
Proof.
  induction l as [|y l IH]; simpl; [reflexivity|].
  destruct (MenuItem_lt x y); [reflexivity|].
  rewrite perm_swap. apply perm_skip, IH.
Qed.

Lemma fold_insort_perm (l sorted : list MenuItem) :
  Permutation (sorted ++ l) (fold_left (fun s x => insort x s) l sorted).
Proof.
  revert sorted. induction l as [|x l IH]; intros sorted; simpl.
  - rewrite app_nil_r. reflexivity.
  - rewrite <- IH. rewrite <- insort_perm.
    symmetry. apply Permutation_middle.
Qed.

Lemma list_sort_perm (l : list MenuItem) : Permutation l (list_sort l).
Proof. apply (fold_insort_perm l []). Qed.

Lemma list_sort_length (l : list MenuItem) :
  List.length (list_sort l) = List.length l.
Proof. symmetry. apply Permutation_length, list_sort_perm. Qed.

Lemma MenuItem_lt_asym (a b : MenuItem) :
  MenuItem_lt a b = true -> MenuItem_lt b a = false.
Proof.
  unfold MenuItem_lt, fltb, feqb, SFltb, SFeqb.
  destruct (SFcompare (price a) (price b)) as [c|] eqn:Hc; [|discriminate].
  rewrite (SFcompare_antisym _ _ _ Hc).
  destruct c; simpl; try discriminate; trivial.
  destruct (Z.ltb_spec (quantity a) (quantity b)); [|discriminate].
  intros _. destruct (Z.ltb_spec (quantity b) (quantity a)); [lia|reflexivity].
Qed.

(** On items whose prices are not NaN, "not greater" is transitive. *)
Lemma MenuItem_le_trans (a b c : MenuItem) :
  is_nan (price a) = false -> is_nan (price b) = false ->
  is_nan (price c) = false ->
  MenuItem_le a b -> MenuItem_le b c -> MenuItem_le a c.
Proof.
  intros Ha Hb Hc. unfold MenuItem_le, MenuItem_lt, fltb, feqb, SFltb, SFeqb.
  destruct (SFcompare_total _ _ Hb Ha) as [c1 H1].
  destruct (SFcompare_total _ _ Hc Hb) as [c2 H2].
  rewrite H1, H2.
  destruct c1, c2; try discriminate.
  - rewrite (SFcompare_eq_l _ _ _ _ H2 H1).
    destruct (Z.ltb_spec (quantity b) (quantity a)); [discriminate|].
    destruct (Z.ltb_spec (quantity c) (quantity b)); [discriminate|].
    destruct (Z.ltb_spec (quantity c) (quantity a)); [lia|reflexivity].
  - rewrite (SFcompare_eq_r _ _ _ _ H2 H1). reflexivity.
  - rewrite (SFcompare_eq_l _ _ _ _ H2 H1). reflexivity.
  - rewrite (SFcompare_trans _ _ _ _ H2 H1). reflexivity.
Qed.

Lemma insort_sorted (x : MenuItem) (l : list MenuItem) :
  nan_free (x :: l) ->
  StronglySorted MenuItem_le l -> StronglySorted MenuItem_le (insort x l).
Proof.
  intros Hnan Hs. induction Hs as [|y l Hs IH Hy]; simpl.
  - repeat constructor.
  - inversion Hnan as [|? ? Hx Hyl]; subst.
    inversion Hyl as [|? ? Hy' Hl]; subst.
    destruct (MenuItem_lt x y) eqn:Hxy.
    + constructor; [constructor; assumption|].
      assert (Hle : MenuItem_le x y) by (apply MenuItem_lt_asym; exact Hxy).
      constructor; [exact Hle|].
      rewrite Forall_forall in *. intros z Hz.
      apply (MenuItem_le_trans x y z); auto.
    + constructor.
      * apply IH. constructor; assumption.
      * apply (Permutation_Forall (insort_perm x l)).
        constructor; [exact Hxy | exact Hy].
Qed.

Lemma fold_insort_sorted (l sorted : list MenuItem) :
  nan_free (sorted ++ l) ->
  StronglySorted MenuItem_le sorted ->
  StronglySorted MenuItem_le (fold_left (fun s x => insort x s) l sorted).
Proof.
  revert sorted. induction l as [|x l IH]; intros sorted Hnan Hs; simpl.
  - exact Hs.
  - assert (Hnan' : nan_free (x :: sorted ++ l)).
    { apply (Permutation_Forall (Permutation_sym (Permutation_middle _ _ _))).
      exact Hnan. }
    apply IH.
    + change (nan_free ((x :: sorted) ++ l)) in Hnan'.
      unfold nan_free in *.
      apply Forall_app in Hnan' as [H1 H2]. apply Forall_app. split; [|exact H2].
      apply (Permutation_Forall (insort_perm x sorted)). exact H1.
    + apply insort_sorted; [|exact Hs].
      unfold nan_free in *. inversion Hnan' as [|? ? Hx Hrest]; subst.
      apply Forall_app in Hrest as [H1 _]. constructor; assumption.
Qed.

(** Where no price is NaN, the sorted list ascends: no item is greater
    than any item after it. *)
Lemma list_sort_sorted (l : list MenuItem) :
  nan_free l -> StronglySorted MenuItem_le (list_sort l).
Proof. intros H. apply fold_insort_sorted; [exact H | constructor]. Qed.

(** Stability: items that are tied keep their relative order. *)
Lemma lt_le_lt (x y z : MenuItem) :
  nan_free [x; y; z] ->
  MenuItem_lt x y = true -> MenuItem_le y z -> MenuItem_lt x z = true.
Proof.
  intros Hnan Hxy Hyz.
  inversion Hnan as [|? ? Hx H1]; subst. inversion H1 as [|? ? Hy H2]; subst.
  inversion H2 as [|? ? Hz _]; subst.
  destruct (MenuItem_lt x z) eqn:Hxz; [reflexivity|].
  assert (H : MenuItem_le y x) by (apply (MenuItem_le_trans y z x); assumption).
  unfold MenuItem_le in H. congruence.
Qed.

Lemma tied_lt (a x z : MenuItem) :
  nan_free [a; x; z] ->
  tied a x = true -> MenuItem_lt x z = true -> tied a z = false.
Proof.
  intros Hnan Ht Hxz.
  inversion Hnan as [|? ? Ha H1]; subst. inversion H1 as [|? ? Hx H2]; subst.
  inversion H2 as [|? ? Hz _]; subst.
  unfold tied in *. apply andb_true_iff in Ht as [_ Hxa].
  apply negb_true_iff in Hxa.
  destruct (MenuItem_lt a z) eqn:Haz; [reflexivity|]. exfalso.
  assert (H : MenuItem_le z x) by (apply (MenuItem_le_trans z a x); assumption).
  unfold MenuItem_le in H. congruence.
Qed.

Lemma filter_none {A} (f : A -> bool) (l : list A) :
  Forall (fun z => f z = false) l -> filter f l = [].
Proof.
  induction 1 as [|z l Hz _ IH]; simpl; [reflexivity|].
  rewrite Hz. exact IH.
Qed.

Lemma insort_stable (a x : MenuItem) (l : list MenuItem) :
  nan_free (a :: x :: l) -> StronglySorted MenuItem_le l ->
  filter (tied a) (insort x l) = filter (tied a) (l ++ [x]).
Proof.
  intros Hnan Hs.
  inversion Hnan as [|? ? Ha H1]; subst. inversion H1 as [|? ? Hx Hl]; subst.
  clear Hnan H1.
  induction Hs as [|y l Hs IH Hy]; [reflexivity|].
  inversion Hl as [|? ? Hy' Hl']; subst.
  rewrite filter_app. cbn [insort].
  destruct (MenuItem_lt x y) eqn:Hxy.
  - change (x :: y :: l) with ([x] ++ y :: l)%list. rewrite filter_app.
    change (filter (tied a) [x]) with (if tied a x then [x] else []).
    destruct (tied a x) eqn:Hax; [|rewrite app_nil_r; reflexivity].
    rewrite (filter_none (tied a) (y :: l)); [reflexivity|].
    assert (Hall : Forall (fun z => MenuItem_lt x z = true) (y :: l)).
    { constructor; [exact Hxy|].
      rewrite Forall_forall in *. intros z Hz.
      apply (lt_le_lt x y z); auto.
      repeat constructor; auto. }
    rewrite Forall_forall in *. intros z Hz.
    apply (tied_lt a x z); auto.
    repeat constructor; auto.
  - change (y :: insort x l) with ([y] ++ insort x l)%list.
    change (y :: l) with ([y] ++ l)%list.
    rewrite !filter_app, (IH Hl'), filter_app, app_assoc. reflexivity.
Qed.

Lemma fold_insort_stable (a : MenuItem) (l sorted : list MenuItem) :
  nan_free (a :: sorted ++ l) -> StronglySorted MenuItem_le sorted ->
  filter (tied a) (fold_left (fun s x => insort x s) l sorted)
  = filter (tied a) (sorted ++ l).
Proof.
  revert sorted. induction l as [|x l IH]; intros sorted Hnan Hs; simpl.
  - rewrite app_nil_r. reflexivity.
  - unfold nan_free in Hnan.
    inversion Hnan as [|? ? Ha Hrest]; subst.
    apply Forall_app in Hrest as [H1 H2].
    inversion H2 as [|? ? Hx Hl]; subst.
    rewrite IH.
    + rewrite !filter_app, insort_stable; auto.
      * rewrite filter_app, <- app_assoc.
        change (x :: l) with ([x] ++ l)%list. rewrite filter_app. reflexivity.
      * repeat (constructor; auto).
    + constructor; [exact Ha|]. apply Forall_app. split; [|exact Hl].
      apply (Permutation_Forall (insort_perm x sorted)).
      constructor; assumption.
    + apply insort_sorted; [constructor; assumption | exact Hs].
Qed.

(** Where no price is NaN, the items tied with a given item come out of
    the sort in the order they went in. *)
Lemma list_sort_stable (a : MenuItem) (l : list MenuItem) :
  nan_free (a :: l) ->
  filter (tied a) (list_sort l) = filter (tied a) l.
Proof. intros H. apply (fold_insort_stable a l []); [exact H | constructor]. Qed.

Lemma MenuItem_lt_irrefl (a : MenuItem) : MenuItem_lt a a = false.
Proof.
  destruct (MenuItem_lt a a) eqn:H; [|reflexivity].
  rewrite (MenuItem_lt_asym a a H) in H. discriminate.
Qed.

(** A stable sorted arrangement is unique: two ascending lists with the
    same items, in which tied items stand in the same relative order, are
    the same list. *)
Lemma stable_sorted_unique (l1 l2 : list MenuItem) :
  Permutation l1 l2 ->
  StronglySorted MenuItem_le l1 -> StronglySorted MenuItem_le l2 ->
  (forall a, In a l1 -> filter (tied a) l1 = filter (tied a) l2) ->
  l1 = l2.
Proof.
  revert l2. induction l1 as [|x l1 IH]; intros l2 Hperm Hs1 Hs2 Hties.
  - apply Permutation_nil in Hperm. congruence.
  - destruct l2 as [|y l2].
    { apply Permutation_sym, Permutation_nil in Hperm. discriminate. }
    inversion Hs1 as [|? ? Hs1' Hx]; subst.
    inversion Hs2 as [|? ? Hs2' Hy]; subst.
    assert (Hxy : x = y).
    { pose proof (Hties x (in_eq _ _)) as Hf. simpl in Hf.
      assert (Hxx : tied x x = true)
        by (unfold tied; rewrite MenuItem_lt_irrefl; reflexivity).
      assert (Htie : tied x y = true).
      { unfold tied. apply andb_true_iff. split; apply negb_true_iff.
        - assert (Hin : In x (y :: l2))
            by (apply (Permutation_in _ Hperm), in_eq).
          destruct Hin as [<-|Hin]; [apply MenuItem_lt_irrefl|].
          rewrite Forall_forall in Hy. exact (Hy x Hin).
        - assert (Hin : In y (x :: l1))
            by (apply (Permutation_in _ (Permutation_sym Hperm)), in_eq).
          destruct Hin as [<-|Hin]; [apply MenuItem_lt_irrefl|].
          rewrite Forall_forall in Hx. exact (Hx y Hin). }
      rewrite Hxx, Htie in Hf. congruence. }
    subst y. f_equal. apply IH; trivial.
    + exact (Permutation_cons_inv Hperm).
    + intros a Ha. pose proof (Hties a (in_cons _ _ _ Ha)) as Hf.
      simpl in Hf. destruct (tied a x); congruence.
Qed.

(** So the list the model computes is the one any stable sort leaves, the
    builtin's included, as long as no price is NaN. *)
Lemma list_sort_unique (l l' : list MenuItem) :
  nan_free l ->
  Permutation l l' -> StronglySorted MenuItem_le l' ->
  (forall a, In a l -> filter (tied a) l' = filter (tied a) l) ->
  l' = list_sort l.
Proof.
  intros Hnan Hperm Hsorted Hties. symmetry.
  apply stable_sorted_unique.
  - rewrite <- Hperm. symmetry. apply list_sort_perm.
  - apply list_sort_sorted. exact Hnan.
  - exact Hsorted.
  - intros a Ha.
    assert (Hin : In a l)
      by (apply (Permutation_in _ (Permutation_sym (list_sort_perm l))), Ha).
    rewrite (Hties a Hin). apply list_sort_stable.
    constructor; [|exact Hnan].
    unfold nan_free in Hnan. rewrite Forall_forall in Hnan. exact (Hnan a Hin).
Qed.

(** ** Iteration *)

Lemma skipn_nth_error {A} (l : list A) (k : nat) (x : A) :
  nth_error l k = Some x -> skipn k l = x :: skipn (S k) l.
Proof.
  revert k. induction l as [|y l IH]; intros [|k] H; simpl in *;
    try discriminate.
  - congruence.
  - apply IH. exact H.
Qed.

(** An iterator that walks the order's list by index, stops when the index
    reaches the length and never changes the order, yields the items from
    its index on, one per step, once it is given enough fuel; with less
    fuel the loop is cut short. *)
Section ExhaustIndexed.
Context {I Y : Type}.
Variable next : step I Y.
Variable at_index : nat -> I.
Variable stopped : I.
Variable f : MenuItem -> Y.
Variable o : Order.

Hypothesis next_stop :
  next (at_index (List.length (menu_items o))) o
  = (Raise StopIteration, stopped, o).
Hypothesis next_step :
  forall k x, nth_error (menu_items o) k = Some x ->
              next (at_index k) o = (Ok (f x), at_index (S k), o).

Lemma exhaust_indexed (fuel k : nat) :
  (k <= List.length (menu_items o))%nat ->
  (List.length (menu_items o) - k < fuel)%nat ->
  exhaust next fuel (at_index k) o
  = Some (Ok (map f (skipn k (menu_items o))), stopped, o).
Proof.
  revert k. induction fuel as [|fuel IH]; intros k Hk Hfuel; [lia|].
  simpl. destruct (nth_error (menu_items o) k) as [x|] eqn:Hx.
  - rewrite (next_step k x Hx).
    assert (Hlt : (k < List.length (menu_items o))%nat)
      by (apply nth_error_Some; congruence).
    rewrite IH by lia.
    rewrite (skipn_nth_error _ _ _ Hx). reflexivity.
  - apply nth_error_None in Hx.
    assert (k = List.length (menu_items o)) by lia. subst k.
    rewrite next_stop, skipn_all. reflexivity.
Qed.

Lemma exhaust_indexed_short (fuel k : nat) :
  (fuel <= List.length (menu_items o) - k)%nat ->
  exhaust next fuel (at_index k) o = None.
Proof.
  revert k. induction fuel as [|fuel IH]; intros k Hfuel; [reflexivity|].
  simpl. destruct (nth_error (menu_items o) k) as [x|] eqn:Hx.
  - rewrite (next_step k x Hx), IH by lia. reflexivity.
  - apply nth_error_None in Hx. lia.
Qed.
End ExhaustIndexed.

Lemma index_not_length {A} (l : list A) (k : nat) (x : A) :
  nth_error l k = Some x -> Nat.eqb k (List.length l) = false.
Proof.
  intros H. apply Nat.eqb_neq.
  assert (k < List.length l)%nat by (apply nth_error_Some; congruence). lia.
Qed.

Lemma MenuMainIterator_next_stop (o : Order) :
  MenuMainIterator_next (mkMain (List.length (menu_items o))) o
  = (Raise StopIteration, mkMain (List.length (menu_items o)), o).
Proof. unfold MenuMainIterator_next. simpl. rewrite Nat.eqb_refl. reflexivity. Qed.

Lemma MenuMainIterator_next_step (o : Order) (k : nat) (x : MenuItem) :
  nth_error (menu_items o) k = Some x ->
  MenuMainIterator_next (mkMain k) o = (Ok x, mkMain (S k), o).
Proof.
  intros H. unfold MenuMainIterator_next. simpl.
  rewrite (index_not_length _ _ _ H), H. reflexivity.
Qed.


Lemma MenuSecondIterator_next_step (o : Order) (l : option (list MenuItem))
    (k : nat) (x : MenuItem) :
  nth_error (menu_items o) k = Some x ->
  MenuSecondIterator_next (mkSecond k l) o
  = (Ok (format_row x), mkSecond (S k) l, o).
Proof.
  intros H. unfold MenuSecondIterator_next. simpl.
  rewrite (index_not_length _ _ _ H), H. reflexivity.
Qed.

Lemma list_iterator_next_stop (o : Order) :
  list_iterator_next (mkListIterator (List.length (menu_items o)) false) o
  = (Raise StopIteration,
     mkListIterator (List.length (menu_items o)) true, o).
Proof.
  unfold list_iterator_next. simpl.
  rewrite (proj2 (nth_error_None _ _)) by lia. reflexivity.
Qed.

Lemma list_iterator_next_step (o : Order) (k : nat) (x : MenuItem) :
  nth_error (menu_items o) k = Some x ->
  list_iterator_next (mkListIterator k false) o
  = (Ok x, mkListIterator (S k) false, o).
Proof. intros H. unfold list_iterator_next. simpl. rewrite H. reflexivity. Qed.


Lemma exhaust_main (o : Order) (fuel : nat) :
  (List.length (menu_items o) < fuel)%nat ->
  exhaust Iterator_next fuel (MainIterator (mkMain 0)) o
  = Some (Ok (items_of (menu_items o)),
          MainIterator (mkMain (List.length (menu_items o))), o).
Proof.
  intros Hfuel.
  apply (exhaust_indexed Iterator_next (fun k => MainIterator (mkMain k))
           _ Item o); try lia.
  - simpl. rewrite MenuMainIterator_next_stop. reflexivity.
  - intros k x Hx. simpl.
    rewrite (MenuMainIterator_next_step _ _ _ Hx). reflexivity.
Qed.


Lemma MenuIterable_iter_main (o : Order) :
  MenuIterable_iter (mkIterable 1) o = (Ok (MainIterator (mkMain 0)), o).
Proof. reflexivity. Qed.

Lemma MenuIterable_iter_second (m : Z) (o : Order) :
  m <> 1 ->
  MenuIterable_iter (mkIterable m) o
  = (Ok (SecondIterator (mkSecond 0 None)), mkOrder (list_sort (menu_items o))).
Proof.
  intros Hm. unfold MenuIterable_iter. simpl.
  destruct (Z.eqb_spec m 1); [contradiction | reflexivity].
Qed.

Lemma traverse_main (o : Order) (fuel : nat) :
  (List.length (menu_items o) < fuel)%nat ->
  traverse fuel (mkIterable 1) o = Some (Ok (items_of (menu_items o)), o).
Proof.
  intros Hfuel. unfold traverse.
  rewrite MenuIterable_iter_main, exhaust_main by exact Hfuel. reflexivity.
Qed.


Lemma traverse_order_all (o : Order) (fuel : nat) :
  (List.length (menu_items o) < fuel)%nat ->
  traverse_order fuel o = Some (Ok (menu_items o), o).
Proof.
  intros Hfuel. unfold traverse_order, Order_iter, ret.
  rewrite (exhaust_indexed list_iterator_next
             (fun k => mkListIterator k false)
             (mkListIterator (List.length (menu_items o)) true)
             (fun item => item) o); try lia.
  - rewrite map_id. reflexivity.
  - apply list_iterator_next_stop.
  - apply list_iterator_next_step.
Qed.

(** C10: a primary-strategy traversal (strategy code 1) yields the
    order's items themselves, one per step, in insertion order, and is
    exhausted after the last; every traversal starts from a fresh
    iterator, so two traversals of the same MenuIterable yield the same
    sequence twice. *)
Theorem C10_primary_traversal (o : Order) (fuel : nat) :
  (List.length (menu_items o) < fuel)%nat ->
  MenuIterable_iter (mkIterable 1) o = (Ok (MainIterator (mkMain 0)), o) /\
  (forall k item,
     nth_error (menu_items o) k = Some item ->
     MenuMainIterator_next (mkMain k) o = (Ok item, mkMain (S k), o)) /\
  MenuMainIterator_next (mkMain (List.length (menu_items o))) o
    = (Raise StopIteration, mkMain (List.length (menu_items o)), o) /\
  traverse fuel (mkIterable 1) o = Some (Ok (items_of (menu_items o)), o) /\
  traverse_twice fuel (mkIterable 1) o
    = Some (Ok (items_of (menu_items o)), Ok (items_of (menu_items o)), o).
Proof.
  intros Hfuel. split; [reflexivity|].
  split; [apply MenuMainIterator_next_step|].
  split; [apply MenuMainIterator_next_stop|].
  split; [apply traverse_main; exact Hfuel|].
  unfold traverse_twice. rewrite !traverse_main by exact Hfuel. reflexivity.
Qed.

Lemma C10_witness :
  traverse 3 (mkIterable 1) (mkOrder [steak; soda])
    = Some (Ok [Item steak; Item soda], mkOrder [steak; soda]) /\
  traverse_twice 3 (mkIterable 1) (mkOrder [steak; soda])
    = Some (Ok [Item steak; Item soda], Ok [Item steak; Item soda],
            mkOrder [steak; soda]).
Proof.
  split; apply (C10_primary_traversal (mkOrder [steak; soda]) 3); simpl; lia.
Defined.

(** ** The format of a row *)

Lemma length_append (s1 s2 : string) :
  String.length (s1 ++ s2) = (String.length s1 + String.length s2)%nat.
Proof. induction s1 as [|c s1 IH]; simpl; [reflexivity | rewrite IH; reflexivity]. Qed.

Lemma spaces_length (n : nat) : String.length (spaces n) = n.
Proof.
  unfold spaces. induction n as [|n IH]; simpl; [reflexivity | rewrite IH; reflexivity].
Qed.

(** Left-justified: the text comes first and spaces fill the field. *)
Lemma ljust_length (w : nat) (s : string) :
  String.length (ljust w s) = Nat.max w (String.length s).
Proof. unfold ljust. rewrite length_append, spaces_length. lia. Qed.

(** Right-justified: spaces come first and the text ends the field. *)
Lemma rjust_length (w : nat) (s : string) :
  String.length (rjust w s) = Nat.max w (String.length s).
Proof. unfold rjust. rewrite length_append, spaces_length. lia. Qed.

(** Centred: the spaces are shared between the two sides, the right side
    taking the odd one. *)
Lemma center_padding (w : nat) (s : string) :
  exists l r,
    center w s = spaces l ++ s ++ spaces r /\
    (l + r = w - String.length s)%nat /\ (l <= r <= l + 1)%nat.
Proof.
  unfold center.
  exists ((w - String.length s) / 2)%nat,
         ((w - String.length s) - (w - String.length s) / 2)%nat.
  split; [reflexivity|].
  pose proof (Nat.div_mod_eq (w - String.length s) 2) as Hdiv.
  pose proof (Nat.mod_upper_bound (w - String.length s) 2) as Hmod.
  lia.
Qed.

Lemma center_length (w : nat) (s : string) :
  String.length (center w s) = Nat.max w (String.length s).
Proof.
  destruct (center_padding w s) as (l & r & -> & Hlr & _).
  rewrite !length_append, !spaces_length. lia.
Qed.

Lemma two_digits_length (n : Z) :
  0 <= n < 100 -> String.length (two_digits n) = 2%nat.
Proof.
  intros Hn.
  assert (Hall : forallb (fun k => Nat.eqb (String.length (two_digits (Z.of_nat k))) 2)
                         (seq 0 100) = true) by (vm_compute; reflexivity).
  rewrite forallb_forall in Hall.
  specialize (Hall (Z.to_nat n)).
  rewrite Z2Nat.id in Hall by lia.
  apply Nat.eqb_eq, Hall, in_seq. lia.
Qed.

(** Two decimals: a number that is not infinite or NaN is printed as a
    sign, an integer part, a point and exactly two digits. *)
Lemma format_2f_two_decimals (x : float) :
  match x with S754_zero _ | S754_finite _ _ _ => True | _ => False end ->
  exists sgn whole frac,
    format_2f x = sign_str sgn ++ whole ++ "." ++ frac /\
    String.length frac = 2%nat.
Proof.
  destruct x as [s|s| |s m e]; simpl; intros H; try contradiction.
  - exists s, "0", "00". split; reflexivity.
  - exists s, (str_int (hundredths m e / 100)),
           (two_digits (hundredths m e mod 100)).
    split; [reflexivity|].
    apply two_digits_length, Z.mod_pos_bound. lia.
Qed.

(** A row whose three fields fit is 37 characters wide: 20, 6 and 5 for
    the fields and 3 for each separator. *)
Lemma format_row_width (item : MenuItem) :
  (String.length (name item) <= 20)%nat ->
  (String.length (format_2f (price item)) <= 6)%nat ->
  (String.length (str_int (quantity item)) <= 5)%nat ->
  String.length (format_row item) = 37%nat.
Proof.
  intros H1 H2 H3. unfold format_row.
  rewrite !length_append, ljust_length, rjust_length, center_length.
  change (String.length " | ") with 3%nat. lia.
Qed.


(** The row of two Nachos for sharing at 5.50 each: 5.50 * 0.95 is the
    float just below 5.225 and prints as 5.22. *)
Example format_row_nachos :
  rbind (Appetizer_init "Nachos" (literal 55 10) 2 true)
        (fun item => Ok (format_row item))
  = Ok "Nachos               |   5.22 |   2  ".
Proof. vm_compute. reflexivity. Qed.

(** ** The secondary strategy sorts the order *)

Lemma MenuSecondIterator_init_eq (o : Order) :
  MenuSecondIterator_init o
  = (Ok (mkSecond 0 None), mkOrder (list_sort (menu_items o))).
Proof. reflexivity. Qed.









(** ** Errors *)

Lemma apply_discount_eq (f : float) (o : Order) :
  apply_discount f o
  = (rbind (py_sum get_total_price (menu_items o)) (fun total =>
     rbind (py_sub (Int 1) (Float f)) (fun d => py_mul total d)), o).
Proof.
  unfold apply_discount, calculate_bill, bind, get_menu_items, lift.
  destruct (py_sum get_total_price (menu_items o)); reflexivity.
Qed.




Lemma traverse_short (self : MenuIterable) (o : Order) (fuel : nat) :
  (fuel <= List.length (menu_items o))%nat -> traverse fuel self o = None.
Proof.
  intros Hfuel. destruct self as [m]. unfold traverse.
  destruct (Z.eq_dec m 1) as [->|Hm].
  - rewrite MenuIterable_iter_main.
    rewrite (exhaust_indexed_short Iterator_next
               (fun k => MainIterator (mkMain k)) Item o); try lia; trivial.
    intros k x Hx. simpl.
    rewrite (MenuMainIterator_next_step _ _ _ Hx). reflexivity.
  - rewrite (MenuIterable_iter_second m o Hm).
    rewrite (exhaust_indexed_short Iterator_next
               (fun k => SecondIterator (mkSecond k None))
               (fun item => Row (format_row item))); trivial.
    + intros k x Hx. simpl.
      rewrite (MenuSecondIterator_next_step _ _ _ _ Hx). reflexivity.
    + simpl. rewrite list_sort_length. lia.
Qed.





(** ** The demonstration *)

(** The ten items of the demonstration: the insertion-order names that
    show() prints first, and the rows the secondary strategy prints after
    it, which come out sorted by price, then quantity. *)
Example demo_run :
  exists o,
    demo = Ok o /\
    fst (show o)
    = Ok ["Nachos"; "Spring Rolls"; "Steak"; "Vegetarian Pasta"; "Coca Cola";
          "Orange Juice"; "Cheesecake"; "Chocolate Cake"; "Garlic Bread";
          "Latte"] /\
    option_map fst (traverse 11 (mkIterable 2) o)
    = Some (Ok [Row "Coca Cola            |   2.62 |   2  ";
                Row "Orange Juice         |   3.00 |   1  ";
                Row "Garlic Bread         |   3.32 |   1  ";
                Row "Latte                |   4.00 |   1  ";
                Row "Spring Rolls         |   4.00 |   3  ";
                Row "Nachos               |   5.22 |   2  ";
                Row "Chocolate Cake       |   5.50 |   1  ";
                Row "Cheesecake           |   5.70 |   1  ";
                Row "Vegetarian Pasta     |  12.00 |   2  ";
                Row "Steak                |  15.75 |   1  "]).
Proof. eexists. split; [vm_compute; reflexivity|]. split; vm_compute; reflexivity. Qed.

(** * Further properties *)

(** ** Building an order *)

Lemma add_all_items (items : list MenuItem) (o : Order) :
  menu_items (add_all items o) = (menu_items o ++ items)%list.
Proof.
  revert o. induction items as [|item items IH]; intros o; simpl.
  - rewrite app_nil_r. reflexivity.
  - unfold add_all in IH. rewrite IH. simpl.
    rewrite <- app_assoc. reflexivity.
Qed.

(** X1: adding items one after the other appends them in that order:
    show() then lists the earlier names followed by the new ones, and the
    length grows by the number of items added. *)
Theorem X1_add_items_appends (items : list MenuItem) (o : Order) :
  menu_items (add_all items o) = (menu_items o ++ items)%list /\
  fst (show (add_all items o))
    = Ok (map str (menu_items o) ++ map str items)%list /\
  fst (Order_len (add_all items o))
    = Ok (List.length (menu_items o) + List.length items)%nat.
Proof.
  split; [apply add_all_items|]. split.
  - unfold show, bind, get_menu_items, ret. simpl.
    rewrite add_all_items, map_app. reflexivity.
  - unfold Order_len, bind, get_menu_items, ret. simpl.
    rewrite add_all_items, length_app. reflexivity.
Qed.

Lemma sum_from_app {A} (f : A -> result number) (l : list A) (x : A)
    (acc : number) :
  sum_from f acc (l ++ [x])
  = rbind (sum_from f acc l) (fun b =>
    rbind (f x) (fun t => py_add b t)).
Proof.
  revert acc. induction l as [|y l IH]; intros acc; simpl.
  - destruct (f x) as [t|e]; simpl; [|reflexivity].
    destruct (py_add acc t); reflexivity.
  - destruct (f y) as [t|e]; simpl; [|reflexivity].
    destruct (py_add acc t) as [acc'|e]; simpl; [apply IH | reflexivity].
Qed.

(** X2: the bill after add_item is the bill before plus the total price of
    the added item (an error of the earlier bill coming first). *)
Theorem X2_bill_after_add_item (item : MenuItem) (o : Order) :
  fst (calculate_bill (snd (add_item item o)))
  = rbind (fst (calculate_bill o)) (fun bill =>
    rbind (get_total_price item) (fun t => py_add bill t)).
Proof.
  unfold calculate_bill, add_item, bind, get_menu_items, set_menu_items, lift.
  simpl. apply sum_from_app.
Qed.

(** ** Iterators read the order as it is *)

Lemma traverse_order_short (o : Order) (fuel : nat) :
  (fuel <= List.length (menu_items o))%nat -> traverse_order fuel o = None.
Proof.
  intros Hfuel. unfold traverse_order, Order_iter, ret.
  rewrite (exhaust_indexed_short list_iterator_next
             (fun k => mkListIterator k false) (fun item => item) o);
    try lia; [reflexivity | apply list_iterator_next_step].
Qed.

(** X3: the primary strategy and the default iteration of the order agree:
    with the same number of steps allowed, both stop or both go on, both
    yield the stored items in the stored sequence and both leave the
    order as it is. *)
Theorem X3_primary_is_default_iteration (o : Order) (fuel : nat) :
  traverse fuel (mkIterable 1) o
  = match traverse_order fuel o with
    | Some (r, o') => Some (rbind r (fun l => Ok (items_of l)), o')
    | None => None
    end.
Proof.
  destruct (Nat.le_gt_cases fuel (List.length (menu_items o))) as [Hle|Hgt].
  - rewrite traverse_short, traverse_order_short by exact Hle. reflexivity.
  - rewrite traverse_main, traverse_order_all by exact Hgt. reflexivity.
Qed.





Lemma add_item_items (item : MenuItem) (o : Order) :
  menu_items (snd (add_item item o)) = (menu_items o ++ [item])%list.
Proof. reflexivity. Qed.

(** X5: the iterators hold the order, not a copy of its list.  A primary
    iterator that has reached the end raises StopIteration, yet once an
    item is added to the order the same iterator yields that item; the
    iterator of the default iteration, once it has stopped, stays
    stopped. *)
Theorem X5_main_iterator_sees_added_item (item : MenuItem) (o : Order) :
  let n := List.length (menu_items o) in
  let o' := snd (add_item item o) in
  MenuMainIterator_next (mkMain n) o = (Raise StopIteration, mkMain n, o) /\
  MenuMainIterator_next (mkMain n) o' = (Ok item, mkMain (S n), o') /\
  list_iterator_next (mkListIterator n false) o
    = (Raise StopIteration, mkListIterator n true, o) /\
  list_iterator_next (mkListIterator n true) o'
    = (Raise StopIteration, mkListIterator n true, o').
Proof.
  intros n o'.
  split; [apply MenuMainIterator_next_stop|].
  split; [|split; [apply list_iterator_next_stop | reflexivity]].
  apply MenuMainIterator_next_step.
  unfold o'. rewrite add_item_items.
  rewrite nth_error_app2 by (unfold n; lia).
  unfold n. rewrite Nat.sub_diag. reflexivity.
Qed.



(** ** The ordering of menu items *)

Lemma MenuItem_lt_not_nan (a b : MenuItem) :
  MenuItem_lt a b = true ->
  is_nan (price a) = false /\ is_nan (price b) = false.
Proof.
  unfold MenuItem_lt, fltb, feqb, SFltb, SFeqb.
  destruct (price a) as [[]|[]| |[] ? ?], (price b) as [[]|[]| |[] ? ?];
    simpl; auto; discriminate.
Qed.

(** X7: [<] on menu items is a strict order: no item is less than itself,
    two items are never each less than the other, and less-than is
    transitive.  An item whose price is NaN is neither less than nor
    greater than any item. *)
Theorem X7_lt_strict_order :
  (forall a, MenuItem_lt a a = false) /\
  (forall a b, MenuItem_lt a b = true -> MenuItem_lt b a = false) /\
  (forall a b c,
     MenuItem_lt a b = true -> MenuItem_lt b c = true ->
     MenuItem_lt a c = true) /\
  (forall a b,
     is_nan (price a) = true ->
     MenuItem_lt a b = false /\ MenuItem_lt b a = false).
Proof.
  split; [apply MenuItem_lt_irrefl|].
  split; [apply MenuItem_lt_asym|].
  split.
  - intros a b c Hab Hbc.
    destruct (MenuItem_lt_not_nan _ _ Hab) as [Ha Hb].
    destruct (MenuItem_lt_not_nan _ _ Hbc) as [_ Hc].
    apply (lt_le_lt a b c); [repeat constructor; assumption | exact Hab|].
    apply MenuItem_lt_asym. exact Hbc.
  - intros a b Ha.
    split.
    + destruct (MenuItem_lt a b) eqn:H; [|reflexivity].
      apply MenuItem_lt_not_nan in H as [H _]. congruence.
    + destruct (MenuItem_lt b a) eqn:H; [|reflexivity].
      apply MenuItem_lt_not_nan in H as [_ H]. congruence.
Qed.

Lemma X7_witness :
  MenuItem_lt soda (mkMenuItem "Tea" (Z2F 6) 1 Base) = true /\
  MenuItem_lt (mkMenuItem "?" S754_nan 1 Base) steak = false.
Proof.
  destruct X7_lt_strict_order as (_ & _ & Htrans & Hnan).
  split.
  - apply (Htrans soda steak); reflexivity.
  - apply (Hnan (mkMenuItem "?" S754_nan 1 Base) steak). reflexivity.
Defined.

(** ** What the secondary strategy does to the order *)


Lemma list_sort_of_sorted (l : list MenuItem) :
  nan_free l -> StronglySorted MenuItem_le l -> list_sort l = l.
Proof.
  intros Hnan Hs. symmetry.
  apply list_sort_unique; trivial.
Qed.


(** X8: where no price is NaN, the list the secondary iterator's
    constructor leaves in the order is the only arrangement of the stored
    items that ascends by price, then quantity, and keeps tied items in
    the order they were stored in. *)
Theorem X8_sorted_arrangement_unique (o : Order) (l' : list MenuItem) :
  nan_free (menu_items o) ->
  Permutation (menu_items o) l' ->
  StronglySorted MenuItem_le l' ->
  (forall a, In a (menu_items o) ->
             filter (tied a) l' = filter (tied a) (menu_items o)) ->
  menu_items (snd (MenuSecondIterator_init o)) = l'.
Proof.
  intros Hnan Hperm Hs Hties. simpl. symmetry.
  apply list_sort_unique; assumption.
Qed.

Lemma X8_witness :
  menu_items (snd (MenuSecondIterator_init (mkOrder [steak; soda])))
  = [soda; steak].
Proof.
  apply (X8_sorted_arrangement_unique (mkOrder [steak; soda]) [soda; steak]).
  - repeat constructor.
  - apply perm_swap.
  - repeat constructor.
  - intros a [<-|[<-|[]]]; reflexivity.
Defined.

(** X9: where no price is NaN, making a secondary iterator leaves the
    order's stored sequence as it was exactly when that sequence was
    already ascending. *)
Theorem X9_unchanged_iff_sorted (o : Order) (m : Z) :
  nan_free (menu_items o) -> m <> 1 ->
  (snd (MenuIterable_iter (mkIterable m) o) = o <->
   StronglySorted MenuItem_le (menu_items o)).
Proof.
  intros Hnan Hm. rewrite (MenuIterable_iter_second m o Hm). simpl. split.
  - intros H. rewrite <- H. simpl. apply list_sort_sorted. exact Hnan.
  - intros Hs. rewrite (list_sort_of_sorted _ Hnan Hs). destruct o; reflexivity.
Qed.

Lemma X9_witness :
  snd (MenuIterable_iter (mkIterable 2) (mkOrder [soda; steak]))
  = mkOrder [soda; steak].
Proof.
  apply (X9_unchanged_iff_sorted (mkOrder [soda; steak]) 2).
  - repeat constructor.
  - discriminate.
  - repeat constructor.
Defined.



(** ** Prices and bills that are not negative *)

Lemma binary_round_aux_not_neg (mx ex : Z) (lx : location) :
  fltb (binary_round_aux prec emax false mx ex lx) F0 = false.
Proof.
  unfold binary_round_aux.
  destruct (shr_fexp prec emax mx ex lx) as [mrs' e'].
  destruct (shr_fexp prec emax _ e' loc_Exact) as [mrs'' e''].
  destruct (shr_m mrs''); [reflexivity | | reflexivity].
  destruct (e'' <=? emax - prec); reflexivity.
Qed.

Lemma binary_round_not_neg (m : positive) (e : Z) :
  fltb (binary_round prec emax false m e) F0 = false.
Proof.
  unfold binary_round.
  destruct (shl_align m e _) as [mz ez]. apply binary_round_aux_not_neg.
Qed.

Lemma fmul_not_neg (x y : float) :
  fltb x F0 = false -> fltb y F0 = false -> fltb (fmul x y) F0 = false.
Proof.
  destruct x as [[]|[]| |[] m1 e1], y as [[]|[]| |[] m2 e2];
    intros Hx Hy; try discriminate; try reflexivity.
  apply binary_round_aux_not_neg.
Qed.

Lemma fadd_not_neg (x y : float) :
  fltb x F0 = false -> fltb y F0 = false -> fltb (fadd x y) F0 = false.
Proof.
  destruct x as [[]|[]| |[] m1 e1], y as [[]|[]| |[] m2 e2];
    intros Hx Hy; try discriminate; try reflexivity.
  unfold fadd, SFadd. cbn [cond_Zopp].
  destruct (shl_align m1 e1 _) as [a ea], (shl_align m2 e2 _) as [b eb].
  cbn [fst Z.add binary_normalize]. apply binary_round_not_neg.
Qed.

Lemma Z2F_not_neg (q : Z) : 0 < q -> fltb (Z2F q) F0 = false.
Proof.
  intros Hq. destruct q as [|p|p]; try lia.
  apply binary_round_not_neg.
Qed.

Lemma subclass_init_valid (v : Variant) (flag : bool) (fee : float)
    (n : string) (p : float) (q : Z) (item : MenuItem) :
  fltb fee F0 = false ->
  subclass_init v flag fee n p q = Ok item ->
  valid_item item /\ name item = n /\ quantity item = q /\ variant item = v.
Proof.
  intros Hfee. unfold subclass_init, MenuItem_init.
  destruct (fltb p F0) eqn:Hp; [discriminate|].
  destruct (Z.leb_spec q 0) as [Hq|Hq]; [discriminate|]. simpl.
  intros H. injection H as <-. unfold valid_item.
  destruct flag; simpl; repeat split; trivial.
  apply fmul_not_neg; assumption.
Qed.

(** X11: every item a constructor returns satisfies what the base
    constructor checked, also after a variant's price adjustment: its price
    is not below 0 and its quantity is above 0; it keeps the name and the
    quantity it was given, and a variant's text is its name. *)
Theorem X11_constructed_items_valid (n : string) (p : float) (q : Z)
    (flag : bool) (size : string) (item : MenuItem) :
  MenuItem_init n p q = Ok item \/
  Appetizer_init n p q flag = Ok item \/
  MainCourse_init n p q flag = Ok item \/
  Beverage_init n p q size flag = Ok item \/
  Dessert_init n p q flag = Ok item ->
  valid_item item /\ name item = n /\ quantity item = q /\
  (variant item <> Base -> str item = n).
Proof.
  intros [H|[H|[H|[H|H]]]].
  - unfold MenuItem_init in H.
    destruct (fltb p F0) eqn:Hp; [discriminate|].
    destruct (Z.leb_spec q 0) as [Hq|Hq]; [discriminate|].
    injection H as <-. unfold valid_item. simpl. repeat split; trivial.
    intros Hv. contradiction.
  - apply subclass_init_valid in H as (Hv & Hn & Hq & Hvar); [|reflexivity].
    repeat split; try apply Hv; trivial.
    intros _. unfold str. rewrite Hvar. exact Hn.
  - apply subclass_init_valid in H as (Hv & Hn & Hq & Hvar); [|reflexivity].
    repeat split; try apply Hv; trivial.
    intros _. unfold str. rewrite Hvar. exact Hn.
  - apply subclass_init_valid in H as (Hv & Hn & Hq & Hvar); [|reflexivity].
    repeat split; try apply Hv; trivial.
    intros _. unfold str. rewrite Hvar. exact Hn.
  - apply subclass_init_valid in H as (Hv & Hn & Hq & Hvar); [|reflexivity].
    repeat split; try apply Hv; trivial.
    intros _. unfold str. rewrite Hvar. exact Hn.
Qed.

Lemma X11_witness :
  valid_item (mkMenuItem "Nachos" (fmul (literal 55 10) F0_95) 2 (Appetizer true)).
Proof.
  apply (X11_constructed_items_valid "Nachos" (literal 55 10) 2 true "").
  right. left. vm_compute. reflexivity.
Defined.

Lemma get_total_price_not_neg (item : MenuItem) (t : float) :
  valid_item item -> get_total_price item = Ok (Float t) ->
  fltb t F0 = false.
Proof.
  intros [Hp Hq]. rewrite get_total_price_eq. unfold float_of_int.
  pose proof (Z2F_not_neg _ Hq) as Hf.
  destruct (Z2F (quantity item)) eqn:Hz; simpl; try discriminate;
    intros H; injection H as <-; apply fmul_not_neg; assumption.
Qed.

Lemma sum_from_not_neg (items : list MenuItem) (acc b : float) :
  Forall valid_item items -> fltb acc F0 = false ->
  sum_from get_total_price (Float acc) items = Ok (Float b) ->
  fltb b F0 = false.
Proof.
  intros Hall. revert acc. induction Hall as [|item items Hv _ IH];
    intros acc Hacc.
  - intros H. injection H as <-. exact Hacc.
  - cbn [sum_from].
    destruct (get_total_price item) as [[z|t]|e] eqn:Ht; cbn [rbind].
    + rewrite get_total_price_eq in Ht.
      destruct (float_of_int (quantity item)); discriminate.
    + change (py_add (Float acc) (Float t)) with (Ok (Float (fadd acc t))).
      cbn [rbind]. apply IH. apply fadd_not_neg; [exact Hacc|].
      exact (get_total_price_not_neg item t Hv Ht).
    + discriminate.
Qed.

Lemma py_sum_cons_float (item : MenuItem) (items : list MenuItem) (t : float) :
  get_total_price item = Ok (Float t) ->
  py_sum get_total_price (item :: items)
  = sum_from get_total_price (Float (fadd F0 t)) items.
Proof. intros H. unfold py_sum. cbn [sum_from]. rewrite H. reflexivity. Qed.

(** X12: the bill of an order whose items all satisfy the constructor's
    checks is never below 0: when calculate_bill() returns a float b,
    b < 0 is false; so is the total price of each such item. *)
Theorem X12_bill_not_negative (o : Order) (b : float) :
  Forall valid_item (menu_items o) ->
  fst (calculate_bill o) = Ok (Float b) ->
  fltb b F0 = false /\
  (forall item t, In item (menu_items o) ->
                  get_total_price item = Ok (Float t) -> fltb t F0 = false).
Proof.
  intros Hall Hbill. split.
  - change (fst (calculate_bill o))
      with (py_sum get_total_price (menu_items o)) in Hbill.
    destruct (menu_items o) as [|item items]; [discriminate|].
    inversion Hall as [|? ? Hv Hrest]; subst.
    destruct (float_of_int (quantity item)) as [fq|e] eqn:Hfq.
    + assert (Ht : get_total_price item
                   = Ok (Float (fmul (price item) fq)))
        by (rewrite get_total_price_eq, Hfq; reflexivity).
      rewrite (py_sum_cons_float _ _ _ Ht) in Hbill.
      apply (sum_from_not_neg items (fadd F0 (fmul (price item) fq)) b Hrest);
        [|exact Hbill].
      apply fadd_not_neg; [reflexivity|].
      exact (get_total_price_not_neg item _ Hv Ht).
    + unfold py_sum in Hbill. cbn [sum_from] in Hbill.
      rewrite get_total_price_eq, Hfq in Hbill. discriminate.
  - intros item t Hin. rewrite Forall_forall in Hall.
    apply get_total_price_not_neg, Hall, Hin.
Qed.

Lemma X12_witness :
  fltb (fold_left fadd [Z2F 5; Z2F 4] F0) F0 = false.
Proof.
  apply (X12_bill_not_negative (mkOrder [steak; soda])).
  - repeat constructor.
  - vm_compute. reflexivity.
Defined.

(** ** Rows *)

(** X13: a row is never cut: its width is the sum of the widths of its
    three fields, each at least 20, 6 and 5, and of the two separators, so
    it is 37 characters wide exactly when the name, the price text and the
    quantity text fit their fields, and wider otherwise. *)
Theorem X13_row_width (item : MenuItem) :
  let n := String.length (name item) in
  let p := String.length (format_2f (price item)) in
  let q := String.length (str_int (quantity item)) in
  String.length (format_row item)
    = (Nat.max 20 n + 3 + Nat.max 6 p + 3 + Nat.max 5 q)%nat /\
  (String.length (format_row item) = 37%nat <->
   (n <= 20 /\ p <= 6 /\ q <= 5)%nat).
Proof.
  intros n p q.
  assert (H : String.length (format_row item)
              = (Nat.max 20 n + 3 + Nat.max 6 p + 3 + Nat.max 5 q)%nat).
  { unfold format_row, n, p, q.
    rewrite !length_append, ljust_length, rjust_length, center_length.
    change (String.length " | ") with 3%nat. lia. }
  split; [exact H|]. rewrite H. lia.
Qed.




(** Halves go to the even hundredth: 0.125 prints as 0.12, 0.375 as 0.38. *)
Example format_2f_ties :
  format_2f (literal 125 1000) = "0.12" /\ format_2f (literal 375 1000) = "0.38".
Proof. vm_compute. split; reflexivity. Qed.

(** ** Multiplying by one and by zero *)

Lemma digits2_pos_iter (m n : positive) :
  Zpos (digits2_pos (Pos.iter xO m n)) = Zpos (digits2_pos m) + Zpos n.
Proof.
  induction n as [|n IH] using Pos.peano_ind.
  - simpl. lia.
  - rewrite Pos.iter_succ. simpl digits2_pos. lia.
Qed.

Lemma fmul_one_finite (s : bool) (m : positive) (e : Z) :
  bounded prec emax m e = true ->
  fmul (S754_finite s m e) (Z2F 1) = S754_finite s m e.
Proof.
  intros Hb. apply andb_true_iff in Hb as [Hc He].
  unfold canonical_mantissa in Hc. apply Z.eqb_eq in Hc. apply Z.leb_le in He.
  change (Z2F 1) with (S754_finite false 4503599627370496 (-52)).
  unfold fmul, SFmul.
  replace (m * 4503599627370496)%positive with (Pos.iter xO m 52)
    by (rewrite Pos.mul_comm; reflexivity).
  unfold binary_round_aux, shr_fexp.
  change (Zdigits2 (Z.pos (Pos.iter xO m 52)))
    with (Z.pos (digits2_pos (Pos.iter xO m 52))).
  rewrite digits2_pos_iter.
  replace (Z.pos (digits2_pos m) + 52 + (e + -52))
    with (Z.pos (digits2_pos m) + e) by lia.
  rewrite Hc.
  replace (e - (e + -52)) with 52 by lia.
  change (shr (shr_record_of_loc (Z.pos (Pos.iter xO m 52)) loc_Exact)
              (e + -52) 52)
    with (Build_shr_record (Z.pos m) false false, e + -52 + 52).
  cbv iota beta.
  cbn [shr_m shr_r shr_s loc_of_shr_record round_nearest_even
       shr_record_of_loc Zdigits2].
  replace (e + -52 + 52) with e by lia.
  rewrite Hc, Z.sub_diag.
  cbn [shr shr_m].
  destruct (Z.leb_spec e (emax - prec)); [|lia].
  destruct s; reflexivity.
Qed.

(** A float in canonical form times 1.0 is that float. *)
Lemma fmul_one (x : float) :
  valid_binary prec emax x = true -> fmul x (Z2F 1) = x.
Proof.
  destruct x as [[]|[]| |s m e]; try reflexivity.
  apply fmul_one_finite.
Qed.

(** X15: apply_discount(0.0) returns the bill itself, for every bill
    that is a float in canonical form (as every float a computation
    produces is), and apply_discount(1.0) returns zero, with the sign of
    the bill, when the bill is finite. *)
Theorem X15_discount_none_and_full (o : Order) (b : float) :
  fst (calculate_bill o) = Ok (Float b) ->
  valid_binary prec emax b = true ->
  fst (apply_discount F0 o) = Ok (Float b) /\
  (forall s m e, b = S754_finite s m e \/ b = S754_zero s ->
     fst (apply_discount (Z2F 1) o) = Ok (Float (S754_zero s))).
Proof.
  intros Hbill Hvalid.
  change (fst (calculate_bill o))
    with (py_sum get_total_price (menu_items o)) in Hbill.
  rewrite !apply_discount_eq. cbn [fst]. rewrite Hbill. cbn [rbind].
  change (py_sub (Int 1) (Float F0)) with (Ok (Float (Z2F 1))).
  change (py_sub (Int 1) (Float (Z2F 1))) with (Ok (Float F0)).
  cbn [rbind]. split.
  - change (py_mul (Float b) (Float (Z2F 1)))
      with (Ok (Float (fmul b (Z2F 1)))).
    rewrite (fmul_one b Hvalid). reflexivity.
  - intros s m e [->| ->]; destruct s; reflexivity.
Qed.

Lemma X15_witness :
  fst (apply_discount F0 (mkOrder [steak; soda])) = Ok (Float (Z2F 9)).
Proof.
  apply (X15_discount_none_and_full (mkOrder [steak; soda]) (Z2F 9));
    vm_compute; reflexivity.
Defined.

(** X16: the total price of an item of quantity 1 is its price, and
    change_price(1.0) leaves an item as it is, the price being a float in
    canonical form. *)
Theorem X16_unit_quantity_and_unit_fee (item : MenuItem) :
  valid_binary prec emax (price item) = true ->
  (quantity item = 1 -> get_total_price item = Ok (Float (price item))) /\
  change_price (Z2F 1) item = item.
Proof.
  intros Hvalid. split.
  - intros Hq. rewrite get_total_price_eq, Hq.
    change (float_of_int 1) with (Ok (Z2F 1)). cbn [rbind].
    rewrite (fmul_one _ Hvalid). reflexivity.
  - unfold change_price. rewrite (fmul_one _ Hvalid).
    destruct item; reflexivity.
Qed.

Lemma X16_witness :
  get_total_price steak = Ok (Float (price steak)) /\
  change_price (Z2F 1) steak = steak.
Proof.
  split.
  - apply (X16_unit_quantity_and_unit_fee steak); reflexivity.
  - apply (X16_unit_quantity_and_unit_fee steak); reflexivity.
Defined.

(** X17: change_price touches the price alone, and does not check it: with
    a fee that is not below 0 an item that satisfies the constructor's
    checks still does; two changes multiply one after the other. *)
Theorem X17_change_price_keeps_valid (fee fee' : float) (item : MenuItem) :
  valid_item item -> fltb fee F0 = false ->
  valid_item (change_price fee item) /\
  name (change_price fee item) = name item /\
  quantity (change_price fee item) = quantity item /\
  variant (change_price fee item) = variant item /\
  price (change_price fee' (change_price fee item))
    = fmul (fmul (price item) fee) fee'.
Proof.
  intros [Hp Hq] Hfee. unfold valid_item, change_price. simpl.
  repeat split; trivial.
  apply fmul_not_neg; assumption.
Qed.

Lemma X17_witness :
  valid_item (change_price F0_95 steak).
Proof.
  apply (X17_change_price_keeps_valid F0_95 F0 steak).
  - split; [reflexivity | simpl; lia].
  - reflexivity.
Defined.

(** ** The index of an iterator stays within the list *)

(** X18: an iterator whose index is not past the end of the order's list
    never raises IndexError: a step yields an item or raises
    StopIteration, and leaves the index not past the end, as does adding
    an item to the order and making another iterator (which may sort the
    list but keeps its length); and an iterator starts at index 0.  So no
    IndexError arises from an iterator made by a MenuIterable. *)
Theorem X18_index_within_list (it : Iterator) (o : Order) (item : MenuItem) :
  (Iterator_index it <= List.length (menu_items o))%nat ->
  fst (fst (Iterator_next it o)) <> Raise IndexError /\
  (Iterator_index (snd (fst (Iterator_next it o)))
   <= List.length (menu_items (snd (Iterator_next it o))))%nat /\
  (Iterator_index it
   <= List.length (menu_items (snd (add_item item o))))%nat /\
  (forall self,
     (Iterator_index it
      <= List.length (menu_items (snd (MenuIterable_iter self o))))%nat) /\
  (forall self it',
     fst (MenuIterable_iter self o) = Ok it' -> Iterator_index it' = 0%nat).
Proof.
  intros Hidx.
  assert (Hstep :
    fst (fst (Iterator_next it o)) <> Raise IndexError /\
    (Iterator_index (snd (fst (Iterator_next it o)))
     <= List.length (menu_items (snd (Iterator_next it o))))%nat).
  { destruct it as [[k]|[k l]]; simpl in *.
    - unfold MenuMainIterator_next. simpl.
      destruct (Nat.eqb_spec k (List.length (menu_items o))) as [->|Hne];
        simpl; [split; [discriminate | lia]|].
      destruct (nth_error (menu_items o) k) as [x|] eqn:Hx; simpl.
      + split; [discriminate|].
        assert (k < List.length (menu_items o))%nat
          by (apply nth_error_Some; congruence). lia.
      + apply nth_error_None in Hx. lia.
    - unfold MenuSecondIterator_next. simpl.
      destruct (Nat.eqb_spec k (List.length (menu_items o))) as [->|Hne];
        simpl; [split; [discriminate | lia]|].
      destruct (nth_error (menu_items o) k) as [x|] eqn:Hx; simpl.
      + split; [discriminate|].
        assert (k < List.length (menu_items o))%nat
          by (apply nth_error_Some; congruence). lia.
      + apply nth_error_None in Hx. lia. }
  destruct Hstep as [H1 H2].
  split; [exact H1|]. split; [exact H2|]. split; [|split].
  - rewrite add_item_items, length_app. simpl. lia.
  - intros [m]. unfold MenuIterable_iter. simpl.
    destruct (m =? 1); simpl; [exact Hidx|].
    rewrite list_sort_length. exact Hidx.
  - intros [m] it'. unfold MenuIterable_iter. simpl.
    destruct (m =? 1); simpl; intros H; injection H as <-; reflexivity.
Qed.

Lemma X18_witness :
  fst (fst (Iterator_next (MainIterator (mkMain 2)) (mkOrder [steak; soda])))
  <> Raise IndexError.
Proof.
  apply (X18_index_within_list (MainIterator (mkMain 2))
           (mkOrder [steak; soda]) steak).
  simpl. lia.
Defined.
